(** * OverlayKeyboardDispatcher

  A shallow embedding of [src/cdk/overlay/keyboard/overlay-keyboard-dispatcher.ts]:
  the service that keeps the list of attached overlays, owns one
  capture-phase [keydown] listener on the document body and forwards every
  keyboard event to one overlay. *)

From Stdlib Require Import List ZArith Bool Lia.
Import ListNotations.

Set Implicit Arguments.
Set Default Proof Using "Type".

(** ** JavaScript array primitives used by the dispatcher *)

Section JsArray.
Variable A : Type.
Variable same : forall a b : A, {a = b} + {a <> b}.

(** [Array.prototype.indexOf]: strict-equality scan from index [i]; -1 when
    nothing is found. *)
Fixpoint indexOf_from (i : Z) (l : list A) (x : A) : Z :=
  match l with
  | [] => (-1)%Z
  | y :: l' => if same y x then i else indexOf_from (i + 1)%Z l' x
  end.

Definition indexOf (l : list A) (x : A) : Z := indexOf_from 0%Z l x.

(** [arr.splice(index, 1)] for an index that is not negative: the array
    that is left. *)
Definition splice1 (l : list A) (index : Z) : list A :=
  firstn (Z.to_nat index) l ++ skipn (S (Z.to_nat index)) l.

(** [arr[i]]: [undefined] (here [None]) outside of [0 .. length-1]. *)
Definition js_get (l : list A) (i : Z) : option A :=
  if (i <? 0)%Z then None else nth_error l (Z.to_nat i).

(** [arr.length] *)
Definition js_length (l : list A) : Z := Z.of_nat (length l).

(** The registry with the first occurrence of [x] taken out, as the
    description of [remove] words it. *)
Fixpoint remove_first (x : A) (l : list A) : list A :=
  match l with
  | [] => []
  | y :: l' => if same y x then l' else y :: remove_first x l'
  end.
End JsArray.

(** ** A sample page for the examples

    Overlay [n] has node [10 * n] as its root element.  Node 20 (overlay 2)
    is the parent of node 10 (overlay 1), which is the parent of node 11;
    node 30 (overlay 3) stands alone and node 99 is inside no overlay.
    [contains] counts a node as containing itself, as in the DOM. *)

Definition sample_overlayElement (overlay : nat) : nat := 10 * overlay.

Definition sample_contains (root node : nat) : bool :=
  Nat.eqb root node
  || (Nat.eqb root 10 && Nat.eqb node 11)
  || (Nat.eqb root 20 && (Nat.eqb node 10 || Nat.eqb node 11)).

(** ** The dispatcher *)

Section Dispatcher.
(** Overlay references are objects compared by identity; DOM nodes
    likewise.  [overlayElement] is the getter of [OverlayRef] and
    [contains] is [Node.prototype.contains]; both belong to code outside of
    this file and are left abstract. *)
Variables OverlayRef Node : Type.
Variable ref_same : forall a b : OverlayRef, {a = b} + {a <> b}.
Variable node_same : forall a b : Node, {a = b} + {a <> b}.
Variable overlayElement : OverlayRef -> Node.
Variable contains : Node -> Node -> bool.

Record KeyboardEvent : Type := mkKeyboardEvent {
  target : Node;
  keyCode : Z
}.

(** The part of the document the dispatcher touches: whether its
    [_keydownListener] is registered on [body] for [keydown] in the capture
    phase.  Registering the same listener again changes nothing. *)
Record Document : Type := mkDocument {
  body_keydown_capture : bool
}.

Definition addEventListener (d : Document) : Document :=
  {| body_keydown_capture := true |}.

Definition removeEventListener (d : Document) : Document :=
  {| body_keydown_capture := false |}.

(** The fields of the class.  [_isAttached] is declared without an
    initial value and is only ever tested for truthiness, so [undefined]
    is read as [false]. *)
Record OverlayKeyboardDispatcher : Type := mkDispatcher {
  _attachedOverlays : list OverlayRef;
  _isAttached : bool;
  _document : Document
}.

(** [new OverlayKeyboardDispatcher(document)] *)
Definition constructor (d : Document) : OverlayKeyboardDispatcher :=
  {| _attachedOverlays := []; _isAttached := false; _document := d |}.

(** A document on which this dispatcher's listener was never registered,
    and the dispatcher built on it. *)
Definition fresh_document : Document := {| body_keydown_capture := false |}.
Definition initial : OverlayKeyboardDispatcher := constructor fresh_document.

Definition listening (s : OverlayKeyboardDispatcher) : bool :=
  body_keydown_capture (_document s).

Definition _detach (s : OverlayKeyboardDispatcher) : OverlayKeyboardDispatcher :=
  if _isAttached s then
    {| _attachedOverlays := _attachedOverlays s;
       _isAttached := false;
       _document := removeEventListener (_document s) |}
  else s.

Definition ngOnDestroy (s : OverlayKeyboardDispatcher) : OverlayKeyboardDispatcher :=
  _detach s.

Definition add (s : OverlayKeyboardDispatcher) (overlayRef : OverlayRef)
  : OverlayKeyboardDispatcher :=
  let s1 :=
    if negb (_isAttached s) then
      {| _attachedOverlays := _attachedOverlays s;
         _isAttached := true;
         _document := addEventListener (_document s) |}
    else s in
  {| _attachedOverlays := _attachedOverlays s1 ++ [overlayRef];
     _isAttached := _isAttached s1;
     _document := _document s1 |}.

Definition remove (s : OverlayKeyboardDispatcher) (overlayRef : OverlayRef)
  : OverlayKeyboardDispatcher :=
  let index := indexOf ref_same (_attachedOverlays s) overlayRef in
  let s1 :=
    if (-1 <? index)%Z then
      {| _attachedOverlays := splice1 (_attachedOverlays s) index;
         _isAttached := _isAttached s;
         _document := _document s |}
    else s in
  if (js_length (_attachedOverlays s1) =? 0)%Z then _detach s1 else s1.

(** The callback handed to [find] in [_selectOverlayFromEvent]. *)
Definition holds_target (event : KeyboardEvent) (overlay : OverlayRef) : bool :=
  (if node_same (overlayElement overlay) (target event) then true else false)
  || contains (overlayElement overlay) (target event).

(** [None] stands for [undefined]: an overlay reference is an object and
    therefore truthy, so [a || b] is [b] exactly when [find] found
    nothing. *)
Definition _selectOverlayFromEvent (s : OverlayKeyboardDispatcher)
           (event : KeyboardEvent) : option OverlayRef :=
  let targetedOverlay := find (holds_target event) (_attachedOverlays s) in
  match targetedOverlay with
  | Some overlay => Some overlay
  | None =>
      js_get (_attachedOverlays s) (js_length (_attachedOverlays s) - 1)%Z
  end.

(** What one run of the listener does: the calls of [_keydownEvents.next]
    it made, in order, or the [TypeError] of a property read on
    [undefined]. *)
Inductive outcome : Type :=
| Returned (emitted : list (OverlayRef * KeyboardEvent))
| TypeError.

(** [x._keydownEvents.next(event)] *)
Definition keydownEvents_next (x : option OverlayRef) (event : KeyboardEvent)
  : outcome :=
  match x with
  | Some overlay => Returned [(overlay, event)]
  | None => TypeError
  end.

Definition _keydownListener (s : OverlayKeyboardDispatcher)
           (event : KeyboardEvent) : outcome :=
  if negb (js_length (_attachedOverlays s) =? 0)%Z then
    keydownEvents_next (_selectOverlayFromEvent s event) event
  else Returned [].

(** ** Sequences of calls of the public interface *)

Inductive call : Type :=
| Add (overlayRef : OverlayRef)
| Remove (overlayRef : OverlayRef).

Definition step (s : OverlayKeyboardDispatcher) (c : call)
  : OverlayKeyboardDispatcher :=
  match c with
  | Add o => add s o
  | Remove o => remove s o
  end.

(** The states reached after each call of the sequence, in order. *)
Fixpoint states_after (s : OverlayKeyboardDispatcher) (cs : list call)
  : list OverlayKeyboardDispatcher :=
  match cs with
  | [] => []
  | c :: cs' => step s c :: states_after (step s c) cs'
  end.

(** The flag of the class agrees with the document. *)
Definition flag_agrees (s : OverlayKeyboardDispatcher) : Prop :=
  _isAttached s = listening s.

(** No [add] of the sequence is given an overlay that is in the registry at
    that moment. *)
Fixpoint adds_fresh (s : OverlayKeyboardDispatcher) (cs : list call) : bool :=
  match cs with
  | [] => true
  | c :: cs' =>
      match c with
      | Add o => if in_dec ref_same o (_attachedOverlays s) then false
                 else adds_fresh (step s c) cs'
      | Remove _ => adds_fresh (step s c) cs'
      end
  end.


(** The invariant kept by [add] and [remove]: the flag agrees with the
    document, and it is set exactly when the registry has an entry. *)
Definition lifecycle_inv (s : OverlayKeyboardDispatcher) : Prop :=
  flag_agrees s /\ (_isAttached s = true <-> _attachedOverlays s <> []).

(** ** The whole life of a dispatcher, teardown included *)

Inductive lifecycle_call : Type :=
| CallAdd (overlayRef : OverlayRef)
| CallRemove (overlayRef : OverlayRef)
| CallNgOnDestroy.

Definition lifecycle_step (s : OverlayKeyboardDispatcher) (c : lifecycle_call)
  : OverlayKeyboardDispatcher :=
  match c with
  | CallAdd o => add s o
  | CallRemove o => remove s o
  | CallNgOnDestroy => ngOnDestroy s
  end.

Fixpoint lifecycle_states_after (s : OverlayKeyboardDispatcher)
         (cs : list lifecycle_call) : list OverlayKeyboardDispatcher :=
  match cs with
  | [] => []
  | c :: cs' => lifecycle_step s c :: lifecycle_states_after (lifecycle_step s c) cs'
  end.

(** The flag agrees with the document, and a set flag comes with a
    registry entry: no listener is left on the body for nobody. *)
Definition no_leak (s : OverlayKeyboardDispatcher) : Prop :=
  flag_agrees s /\ (_isAttached s = true -> _attachedOverlays s <> []).

(** ** The deprecated provider factory

    [dispatcher || new OverlayKeyboardDispatcher(_document)]: the parent
    injector's instance, when there is one ([None] stands for the [null] of
    an optional dependency that was not found), and a new instance
    otherwise. *)
Definition OVERLAY_KEYBOARD_DISPATCHER_PROVIDER_FACTORY
           (dispatcher : option OverlayKeyboardDispatcher) (doc : Document)
  : OverlayKeyboardDispatcher :=
  match dispatcher with
  | Some existing => existing
  | None => constructor doc
  end.

(** ** Facts about the array primitives *)

Lemma splice1_cons (A : Type) (y : A) (l : list A) (k : Z) :
  (0 <= k)%Z -> splice1 (y :: l) (k + 1) = y :: splice1 l k.
Proof.
  intros Hk. unfold splice1.
  replace (Z.to_nat (k + 1)) with (S (Z.to_nat k)) by lia.
  reflexivity.
Qed.

Lemma indexOf_from_spec (A : Type) (same : forall a b : A, {a = b} + {a <> b})
      (x : A) (l : list A) :
  forall i : Z,
    (indexOf_from same i l x = -1 /\ ~ In x l /\ remove_first same x l = l)%Z
    \/ ((i <= indexOf_from same i l x)%Z /\ In x l /\
        splice1 l (indexOf_from same i l x - i) = remove_first same x l)
    \/ (i < 0)%Z.
Proof.
  induction l as [|y l IH]; intros i; simpl.
  - left. auto.
  - destruct (Z_lt_dec i 0) as [Hneg|Hpos]; [right; right; exact Hneg|].
    destruct (same y x) as [->|Hne].
    + right; left. split; [lia|]. split; [now left|].
      rewrite Z.sub_diag. reflexivity.
    + destruct (IH (i + 1)%Z) as [(Hk & Hnot & Hrf)|[(Hle & Hin & Hsp)|Hbad]].
      * left. rewrite Hk, Hrf. repeat split; trivial.
        intros [Heq|Hin]; [now apply Hne|now apply Hnot].
      * right; left. split; [lia|]. split; [now right|].
        rewrite <- Hsp.
        replace (indexOf_from same (i + 1) l x - i)%Z
          with (indexOf_from same (i + 1) l x - (i + 1) + 1)%Z by lia.
        apply splice1_cons. lia.
      * lia.
Qed.

Lemma remove_first_split (A : Type) (same : forall a b : A, {a = b} + {a <> b})
      (x : A) (l1 l2 : list A) :
  ~ In x l1 -> remove_first same x (l1 ++ x :: l2) = l1 ++ l2.
Proof.
  induction l1 as [|y l1 IH]; simpl; intros Hnot.
  - destruct (same x x); [reflexivity|congruence].
  - destruct (same y x) as [->|Hne].
    + exfalso. apply Hnot. now left.
    + f_equal. apply IH. intros Hin. apply Hnot. now right.
Qed.

Lemma remove_first_absent (A : Type) (same : forall a b : A, {a = b} + {a <> b})
      (x : A) (l : list A) :
  ~ In x l -> remove_first same x l = l.
Proof.
  induction l as [|y l IH]; simpl; intros Hnot; [reflexivity|].
  destruct (same y x) as [->|Hne].
  - exfalso. apply Hnot. now left.
  - f_equal. apply IH. intros Hin. apply Hnot. now right.
Qed.

Lemma remove_first_incl (A : Type) (same : forall a b : A, {a = b} + {a <> b})
      (x z : A) (l : list A) :
  In z (remove_first same x l) -> In z l.
Proof.
  induction l as [|y l IH]; simpl; [tauto|].
  destruct (same y x); simpl; intuition.
Qed.

Lemma remove_first_NoDup (A : Type) (same : forall a b : A, {a = b} + {a <> b})
      (x : A) (l : list A) :
  NoDup l -> NoDup (remove_first same x l).
Proof.
  induction 1 as [|y l Hnot Hnd IH]; simpl; [constructor|].
  destruct (same y x); [exact Hnd|].
  constructor; [|exact IH].
  intros Hin. apply Hnot. eapply remove_first_incl; exact Hin.
Qed.

Lemma js_get_last (A : Type) (l : list A) (t : A) :
  js_get (l ++ [t]) (js_length (l ++ [t]) - 1) = Some t.
Proof.
  unfold js_get, js_length. rewrite length_app. simpl.
  destruct (_ <? 0)%Z eqn:E; [apply Z.ltb_lt in E; lia|].
  replace (Z.to_nat (Z.of_nat (length l + 1) - 1)) with (length l + 0)%nat by lia.
  rewrite nth_error_app2 by lia.
  replace (length l + 0 - length l)%nat with 0%nat by lia. reflexivity.
Qed.

Lemma js_length_zero (A : Type) (l : list A) :
  (js_length l =? 0)%Z = true <-> l = [].
Proof.
  unfold js_length. rewrite Z.eqb_eq. destruct l; simpl; split; intros H;
    try reflexivity; try discriminate; lia.
Qed.

Lemma find_first_match (A : Type) (p : A -> bool) (l1 l2 : list A) (h : A) :
  (forall x, In x l1 -> p x = false) -> p h = true ->
  find p (l1 ++ h :: l2) = Some h.
Proof.
  induction l1 as [|y l1 IH]; simpl; intros Hbefore Hh.
  - now rewrite Hh.
  - rewrite (Hbefore y) by now left. apply IH; auto.
Qed.

Lemma find_no_match (A : Type) (p : A -> bool) (l : list A) :
  (forall x, In x l -> p x = false) -> find p l = None.
Proof.
  induction l as [|y l IH]; simpl; intros Hall; [reflexivity|].
  rewrite (Hall y) by now left. apply IH. auto.
Qed.

Lemma first_match_exists (A : Type) (p : A -> bool) (l : list A) :
  (exists h, In h l /\ p h = true) ->
  exists l1 h l2,
    l = l1 ++ h :: l2 /\ p h = true /\ forall x, In x l1 -> p x = false.
Proof.
  induction l as [|y l IH]; intros (h & Hin & Hp).
  - destruct Hin.
  - destruct (p y) eqn:Hy.
    + exists [], y, l. simpl. intuition.
    + destruct IH as (l1 & h' & l2 & -> & Hp' & Hbefore).
      * destruct Hin as [->|Hin]; [congruence|]. now exists h.
      * exists (y :: l1), h', l2. simpl. repeat split; trivial.
        intros x [<-|Hx]; auto.
Qed.

(** ** Facts about the operations *)

Lemma holds_target_true (event : KeyboardEvent) (overlay : OverlayRef) :
  holds_target event overlay = true <->
  (overlayElement overlay = target event \/
   contains (overlayElement overlay) (target event) = true).
Proof.
  unfold holds_target. rewrite orb_true_iff.
  destruct (node_same (overlayElement overlay) (target event)); intuition.
  discriminate.
Qed.

Lemma holds_target_false (event : KeyboardEvent) (overlay : OverlayRef) :
  holds_target event overlay = false <->
  (overlayElement overlay <> target event /\
   contains (overlayElement overlay) (target event) = false).
Proof.
  unfold holds_target. rewrite orb_false_iff.
  destruct (node_same (overlayElement overlay) (target event)); intuition.
  discriminate.
Qed.

Lemma add_registry (s : OverlayKeyboardDispatcher) (o : OverlayRef) :
  _attachedOverlays (add s o) = _attachedOverlays s ++ [o].
Proof. unfold add. destruct (_isAttached s); reflexivity. Qed.

Lemma add_isAttached (s : OverlayKeyboardDispatcher) (o : OverlayRef) :
  _isAttached (add s o) = true.
Proof. unfold add. destruct (_isAttached s) eqn:E; simpl; auto. Qed.

Lemma add_flag_agrees (s : OverlayKeyboardDispatcher) (o : OverlayRef) :
  flag_agrees s -> flag_agrees (add s o).
Proof.
  unfold flag_agrees, listening, add.
  destruct (_isAttached s) eqn:E; simpl; congruence.
Qed.

Lemma add_many_registry (os : list OverlayRef) :
  forall s, _attachedOverlays (fold_left add os s) = _attachedOverlays s ++ os.
Proof.
  induction os as [|o os IH]; intros s; simpl.
  - now rewrite app_nil_r.
  - rewrite IH, add_registry, <- app_assoc. reflexivity.
Qed.

Lemma add_many_flag_agrees (os : list OverlayRef) :
  forall s, flag_agrees s -> flag_agrees (fold_left add os s).
Proof.
  induction os as [|o os IH]; intros s Hs; simpl; [exact Hs|].
  apply IH, add_flag_agrees, Hs.
Qed.

Lemma detach_registry (s : OverlayKeyboardDispatcher) :
  _attachedOverlays (_detach s) = _attachedOverlays s.
Proof. unfold _detach. destruct (_isAttached s); reflexivity. Qed.

Lemma detach_isAttached (s : OverlayKeyboardDispatcher) :
  _isAttached (_detach s) = false.
Proof. unfold _detach. destruct (_isAttached s) eqn:E; simpl; auto. Qed.

Lemma detach_flag_agrees (s : OverlayKeyboardDispatcher) :
  flag_agrees s -> flag_agrees (_detach s).
Proof.
  unfold flag_agrees, listening, _detach.
  destruct (_isAttached s) eqn:E; simpl; congruence.
Qed.

(** The registry after [remove], whatever the state. *)
Lemma remove_registry (s : OverlayKeyboardDispatcher) (o : OverlayRef) :
  _attachedOverlays (remove s o) = remove_first ref_same o (_attachedOverlays s).
Proof.
  unfold remove, indexOf.
  destruct (indexOf_from_spec ref_same o (_attachedOverlays s) 0)
    as [(Hk & _ & Hrf)|[(Hle & _ & Hsp)|Hbad]]; [| |lia].
  - rewrite Hk, Hrf. simpl.
    destruct (js_length _ =? 0)%Z; [apply detach_registry|reflexivity].
  - rewrite Z.sub_0_r in Hsp.
    destruct (-1 <? _)%Z eqn:E; [|apply Z.ltb_ge in E; lia].
    simpl. rewrite Hsp.
    destruct (js_length _ =? 0)%Z; [apply detach_registry|reflexivity].
Qed.

(** [remove] either detaches (the registry is empty then) or leaves flag
    and document alone. *)
Lemma remove_cases (s : OverlayKeyboardDispatcher) (o : OverlayRef) :
  (_attachedOverlays (remove s o) = [] /\
   exists s1, remove s o = _detach s1 /\ _isAttached s1 = _isAttached s /\
              _document s1 = _document s)
  \/ (_attachedOverlays (remove s o) <> [] /\
      _isAttached (remove s o) = _isAttached s /\
      _document (remove s o) = _document s).
Proof.
  unfold remove.
  set (s1 := if (-1 <? _)%Z then _ else s).
  assert (Hs1 : _isAttached s1 = _isAttached s /\ _document s1 = _document s)
    by (subst s1; destruct (-1 <? _)%Z; simpl; auto).
  destruct (js_length (_attachedOverlays s1) =? 0)%Z eqn:E.
  - left. apply js_length_zero in E. split.
    + now rewrite detach_registry.
    + exists s1. split; [reflexivity|exact Hs1].
  - right. split; [|exact Hs1].
    intros Hnil. apply js_length_zero in Hnil. rewrite Hnil in E. discriminate E.
Qed.

(** Every operation of the class keeps the flag in step with the
    document (for [add] and [_detach], see above). *)
Lemma remove_flag_agrees (s : OverlayKeyboardDispatcher) (o : OverlayRef) :
  flag_agrees s -> flag_agrees (remove s o).
Proof.
  intros Hag.
  destruct (remove_cases s o) as [(_ & s1 & Heq & Hf & Hd)|(_ & Hf & Hd)].
  - rewrite Heq. apply detach_flag_agrees.
    unfold flag_agrees, listening in *. now rewrite Hf, Hd.
  - unfold flag_agrees, listening in *. now rewrite Hf, Hd.
Qed.

Lemma add_lifecycle_inv (s : OverlayKeyboardDispatcher) (o : OverlayRef) :
  lifecycle_inv s -> lifecycle_inv (add s o).
Proof.
  intros [Hag _]. split; [now apply add_flag_agrees|].
  rewrite add_isAttached, add_registry. split; [|reflexivity].
  intros _ Hnil. now destruct (app_cons_not_nil _ _ _ (eq_sym Hnil)).
Qed.

Lemma remove_lifecycle_inv (s : OverlayKeyboardDispatcher) (o : OverlayRef) :
  lifecycle_inv s -> lifecycle_inv (remove s o).
Proof.
  intros [Hag Hiff].
  destruct (remove_cases s o) as [(Hnil & s1 & Heq & Hf & Hd)|(Hne & Hf & Hd)].
  - split.
    + rewrite Heq. apply detach_flag_agrees.
      unfold flag_agrees, listening in *. congruence.
    + rewrite Hnil. rewrite Heq, detach_isAttached. split; congruence.
  - split.
    + unfold flag_agrees, listening in *. congruence.
    + split; [intros _; exact Hne|]. intros _. rewrite Hf. apply Hiff.
      intros Hs. apply Hne. rewrite remove_registry, Hs. reflexivity.
Qed.

Lemma step_lifecycle_inv (s : OverlayKeyboardDispatcher) (c : call) :
  lifecycle_inv s -> lifecycle_inv (step s c).
Proof.
  destruct c; simpl; [apply add_lifecycle_inv|apply remove_lifecycle_inv].
Qed.

Lemma initial_lifecycle_inv : lifecycle_inv initial.
Proof.
  split; [reflexivity|]. simpl. split; [discriminate|congruence].
Qed.

Lemma states_after_lifecycle_inv (cs : list call) :
  forall s, lifecycle_inv s -> Forall lifecycle_inv (states_after s cs).
Proof.
  induction cs as [|c cs IH]; intros s Hs; simpl; constructor.
  - now apply step_lifecycle_inv.
  - apply IH. now apply step_lifecycle_inv.
Qed.

Lemma states_after_NoDup (cs : list call) :
  forall s, NoDup (_attachedOverlays s) -> adds_fresh s cs = true ->
            Forall (fun s' => NoDup (_attachedOverlays s')) (states_after s cs).
Proof.
  induction cs as [|c cs IH]; intros s Hnd Hfresh; simpl; [constructor|].
  assert (Hstep : NoDup (_attachedOverlays (step s c)) /\
                  adds_fresh (step s c) cs = true).
  { destruct c as [o|o]; cbn [step adds_fresh] in *.
    - destruct (in_dec ref_same o (_attachedOverlays s)) as [|Hnot];
        [discriminate|].
      split; [|exact Hfresh]. rewrite add_registry.
      apply NoDup_app; [exact Hnd|repeat constructor; intros []|].
      intros x Hx [<-|[]]. contradiction.
    - split; [|exact Hfresh]. rewrite remove_registry.
      now apply remove_first_NoDup. }
  destruct Hstep. constructor; auto.
Qed.

(** A registry that is not empty ends with its most recently attached
    overlay. *)
Lemma select_of_nonempty (s : OverlayKeyboardDispatcher) (event : KeyboardEvent) :
  _attachedOverlays s <> [] ->
  exists h, In h (_attachedOverlays s) /\ _selectOverlayFromEvent s event = Some h.
Proof.
  intros Hne. unfold _selectOverlayFromEvent.
  destruct (find _ _) as [o|] eqn:Ef.
  - exists o. split; [|reflexivity]. now apply find_some in Ef.
  - destruct (exists_last Hne) as (l & t & ->).
    exists t. split; [apply in_or_app; right; now left|apply js_get_last].
Qed.

Lemma listener_of_nonempty (s : OverlayKeyboardDispatcher) (event : KeyboardEvent) :
  _attachedOverlays s <> [] ->
  _keydownListener s event =
  keydownEvents_next (_selectOverlayFromEvent s event) event.
Proof.
  intros Hne. unfold _keydownListener.
  destruct (js_length _ =? 0)%Z eqn:E; [|reflexivity].
  apply js_length_zero in E. contradiction.
Qed.

(** ** Target resolution *)

(** C1. Whenever some registered overlay's root element is the event's
    target or contains it, the registry splits around the first such
    overlay (no overlay attached before it holds the target) and the
    listener hands the event to that overlay, whatever the overlays attached
    after it contain. *)
Theorem dispatch_first_containing
        (s : OverlayKeyboardDispatcher) (event : KeyboardEvent) :
  (exists h, In h (_attachedOverlays s) /\
             (overlayElement h = target event \/
              contains (overlayElement h) (target event) = true)) ->
  exists before h after,
    _attachedOverlays s = before ++ h :: after /\
    (overlayElement h = target event \/
     contains (overlayElement h) (target event) = true) /\
    (forall x, In x before ->
               overlayElement x <> target event /\
               contains (overlayElement x) (target event) = false) /\
    _selectOverlayFromEvent s event = Some h /\
    _keydownListener s event = Returned [(h, event)].
Proof.
  intros (h0 & Hin & Hhold).
  destruct (first_match_exists (holds_target event) (_attachedOverlays s))
    as (before & h & after & Hsplit & Hh & Hbefore).
  { exists h0. split; [exact Hin|]. now apply holds_target_true. }
  exists before, h, after.
  assert (Hsel : _selectOverlayFromEvent s event = Some h).
  { unfold _selectOverlayFromEvent. rewrite Hsplit.
    rewrite find_first_match; auto. }
  repeat split.
  - exact Hsplit.
  - now apply holds_target_true.
  - now apply holds_target_false, Hbefore.
  - now apply holds_target_false, Hbefore.
  - exact Hsel.
  - rewrite listener_of_nonempty, Hsel; [reflexivity|].
    rewrite Hsplit. intros Hnil. now destruct (app_cons_not_nil _ _ _ (eq_sym Hnil)).
Qed.

(** C2. When the registry is not empty and no registered overlay's root
    element is the event's target or contains it, the event goes to the
    overlay at the tail of the registry, the one attached last. *)
Theorem dispatch_fallback_most_recent
        (s : OverlayKeyboardDispatcher) (event : KeyboardEvent) :
  _attachedOverlays s <> [] ->
  (forall h, In h (_attachedOverlays s) ->
             overlayElement h <> target event /\
             contains (overlayElement h) (target event) = false) ->
  exists earlier last,
    _attachedOverlays s = earlier ++ [last] /\
    _selectOverlayFromEvent s event = Some last /\
    _keydownListener s event = Returned [(last, event)].
Proof.
  intros Hne Hnone.
  destruct (exists_last Hne) as (earlier & last & Hsplit).
  exists earlier, last.
  assert (Hsel : _selectOverlayFromEvent s event = Some last).
  { unfold _selectOverlayFromEvent.
    rewrite find_no_match.
    - rewrite Hsplit. apply js_get_last.
    - intros x Hx. now apply holds_target_false, Hnone. }
  repeat split; trivial.
  now rewrite listener_of_nonempty, Hsel.
Qed.

(** C5. With a registry that is not empty, one run of the listener makes
    exactly one sink call: the list of calls it made has one entry, which
    is a registered overlay together with the event itself. *)
Theorem dispatch_single_delivery
        (s : OverlayKeyboardDispatcher) (event : KeyboardEvent) :
  _attachedOverlays s <> [] ->
  exists h, In h (_attachedOverlays s) /\
            _keydownListener s event = Returned [(h, event)].
Proof.
  intros Hne.
  destruct (select_of_nonempty s event Hne) as (h & Hin & Hsel).
  exists h. split; [exact Hin|].
  now rewrite listener_of_nonempty, Hsel.
Qed.

(** C9. With an empty registry the listener returns normally without any
    sink call.  Target resolution is not reached: on that state it yields
    [undefined], and forwarding to it would have thrown. *)
Theorem dispatch_empty_registry_dropped
        (s : OverlayKeyboardDispatcher) (event : KeyboardEvent) :
  _attachedOverlays s = [] ->
  _keydownListener s event = Returned [] /\
  _selectOverlayFromEvent s event = None /\
  keydownEvents_next (_selectOverlayFromEvent s event) event = TypeError.
Proof.
  intros Hnil. unfold _keydownListener, _selectOverlayFromEvent.
  rewrite Hnil. simpl. auto.
Qed.

(** ** Listener lifecycle *)

(** C3. After each call of any sequence of [add] and [remove] calls made on
    a new dispatcher, the listener is registered on the body exactly when
    the registry is not empty, and so says the flag. *)
Theorem listener_bound_iff_registry_nonempty (cs : list call) :
  Forall (fun s => (listening s = true <-> _attachedOverlays s <> []) /\
                   (_isAttached s = true <-> _attachedOverlays s <> []))
         (states_after initial cs).
Proof.
  eapply Forall_impl; [|apply states_after_lifecycle_inv, initial_lifecycle_inv].
  intros s [Hag Hiff]. split; [|exact Hiff].
  unfold flag_agrees in Hag. now rewrite <- Hag.
Qed.

(** C4. [remove] takes out the first occurrence of the overlay and nothing
    else, the other entries keeping their order; without an occurrence the
    registry stays as it was; and when the registry is empty afterwards the
    flag is cleared and, the flag having agreed with the document, the
    listener is no longer registered. *)
Theorem remove_first_occurrence
        (s : OverlayKeyboardDispatcher) (h : OverlayRef) :
  (forall before after,
      _attachedOverlays s = before ++ h :: after -> ~ In h before ->
      _attachedOverlays (remove s h) = before ++ after) /\
  (~ In h (_attachedOverlays s) ->
   _attachedOverlays (remove s h) = _attachedOverlays s) /\
  (_attachedOverlays (remove s h) = [] ->
   _isAttached (remove s h) = false /\
   (flag_agrees s -> listening (remove s h) = false)).
Proof.
  repeat split.
  - intros before after Hsplit Hnot.
    rewrite remove_registry, Hsplit. now apply remove_first_split.
  - intros Hnot. rewrite remove_registry. now apply remove_first_absent.
  - destruct (remove_cases s h) as [(_ & s1 & -> & _)|(Hne & _)];
      [apply detach_isAttached|contradiction].
  - intros Hag.
    destruct (remove_cases s h) as [(_ & s1 & Heq & Hf & Hd)|(Hne & _)];
      [|contradiction].
    assert (Hag1 : flag_agrees (_detach s1)).
    { apply detach_flag_agrees. unfold flag_agrees, listening in *. congruence. }
    rewrite Heq. unfold flag_agrees in Hag1.
    now rewrite <- Hag1, detach_isAttached.
Qed.

(** C10. Starting with [h] not registered, [add] it, [add] any other
    overlays, and [add] it again: the registry holds [h] in two places.
    One [remove] then takes out the first of them only, so [h] is still
    there, once, and the listener stays registered. *)
Theorem double_add_single_remove
        (s : OverlayKeyboardDispatcher) (h : OverlayRef) (others : list OverlayRef) :
  flag_agrees s -> ~ In h (_attachedOverlays s) -> ~ In h others ->
  let twice := add (fold_left add others (add s h)) h in
  _attachedOverlays twice = _attachedOverlays s ++ h :: others ++ [h] /\
  count_occ ref_same (_attachedOverlays twice) h = 2 /\
  _attachedOverlays (remove twice h) = _attachedOverlays s ++ others ++ [h] /\
  count_occ ref_same (_attachedOverlays (remove twice h)) h = 1 /\
  _isAttached (remove twice h) = true /\
  listening (remove twice h) = true.
Proof.
  intros Hag Hnot Hothers twice.
  assert (Hreg : _attachedOverlays twice = _attachedOverlays s ++ h :: others ++ [h]).
  { unfold twice. rewrite add_registry, add_many_registry, add_registry.
    rewrite <- !app_assoc. reflexivity. }
  assert (Hrem : _attachedOverlays (remove twice h)
                 = _attachedOverlays s ++ others ++ [h]).
  { rewrite remove_registry, Hreg. now apply remove_first_split. }
  assert (Hc0 : forall l, ~ In h l -> count_occ ref_same l h = 0)
    by (intros l; apply count_occ_not_In).
  assert (Hflag : _isAttached (remove twice h) = true).
  { destruct (remove_cases twice h) as [(Hnil & _)|(_ & Hf & _)].
    - rewrite Hrem in Hnil. destruct (_attachedOverlays s), others; discriminate.
    - rewrite Hf. apply add_isAttached. }
  assert (Hag' : flag_agrees (remove twice h)).
  { apply remove_lifecycle_inv. split.
    - unfold twice. now apply add_flag_agrees, add_many_flag_agrees, add_flag_agrees.
    - unfold twice at 1. rewrite add_isAttached, Hreg. split; [|reflexivity].
      intros _ Hnil. now destruct (app_cons_not_nil _ _ _ (eq_sym Hnil)). }
  repeat split.
  - exact Hreg.
  - rewrite Hreg. rewrite count_occ_app, (Hc0 _ Hnot). simpl.
    destruct (ref_same h h); [|congruence].
    rewrite count_occ_app, (Hc0 _ Hothers). simpl.
    destruct (ref_same h h); [reflexivity|congruence].
  - exact Hrem.
  - rewrite Hrem. rewrite !count_occ_app, (Hc0 _ Hnot), (Hc0 _ Hothers). simpl.
    destruct (ref_same h h); [reflexivity|congruence].
  - exact Hflag.
  - unfold flag_agrees in Hag'. now rewrite <- Hag'.
Qed.

(** ** Teardown *)

(** C6, as the code has it.  For every state whose flag agrees with the
    document, [ngOnDestroy] leaves the listener unregistered and the flag
    cleared, and the registry exactly as it was: nothing is taken out of
    it. *)
Theorem teardown_unbinds_keeps_registry (s : OverlayKeyboardDispatcher) :
  flag_agrees s ->
  listening (ngOnDestroy s) = false /\
  _isAttached (ngOnDestroy s) = false /\
  _attachedOverlays (ngOnDestroy s) = _attachedOverlays s.
Proof.
  intros Hag. unfold ngOnDestroy.
  pose proof (detach_flag_agrees Hag) as Hag'. unfold flag_agrees in Hag'.
  rewrite <- Hag', detach_isAttached, detach_registry. auto.
Qed.

(** C8. A second [ngOnDestroy] changes nothing that the first one left; on
    a state whose flag is not set, and so on a dispatcher to which nothing
    was ever added, [ngOnDestroy] changes nothing at all.  The operation is
    a total function: there is no failing case. *)
Theorem teardown_idempotent (s : OverlayKeyboardDispatcher) :
  ngOnDestroy (ngOnDestroy s) = ngOnDestroy s /\
  (_isAttached s = false -> ngOnDestroy s = s) /\
  (forall d, ngOnDestroy (constructor d) = constructor d).
Proof.
  unfold ngOnDestroy, _detach. repeat split.
  - destruct (_isAttached s) eqn:E; simpl; [reflexivity|now rewrite E].
  - intros ->. reflexivity.
Qed.

(** ** Uniqueness of registry entries *)

(** C7, as the code has it.  Along any sequence of [add] and [remove]
    calls made on a new dispatcher in which no [add] is given an overlay
    that is in the registry at that moment, no overlay is in the registry
    twice after any of the calls. *)
Theorem registry_NoDup_when_adds_fresh (cs : list call) :
  adds_fresh initial cs = true ->
  Forall (fun s => NoDup (_attachedOverlays s)) (states_after initial cs).
Proof.
  intros Hfresh. apply states_after_NoDup; [constructor|exact Hfresh].
Qed.

(** ** Further facts about arrays and the operations *)

Lemma remove_first_count_occ (A : Type) (same : forall a b : A, {a = b} + {a <> b})
      (h x : A) (l : list A) :
  count_occ same (remove_first same h l) x =
  if same x h then Nat.pred (count_occ same l x) else count_occ same l x.
Proof.
  induction l as [|y l IH]; simpl.
  - destruct (same x h); reflexivity.
  - destruct (same y h) as [->|Hyh].
    + destruct (same x h) as [->|Hxh].
      * destruct (same h h); [reflexivity|congruence].
      * destruct (same h x); [congruence|reflexivity].
    + simpl. rewrite IH. destruct (same x h) as [->|Hxh].
      * destruct (same y h); [congruence|reflexivity].
      * reflexivity.
Qed.

Lemma remove_first_comm (A : Type) (same : forall a b : A, {a = b} + {a <> b})
      (a b : A) (l : list A) :
  remove_first same a (remove_first same b l)
  = remove_first same b (remove_first same a l).
Proof.
  induction l as [|y l IH]; simpl; [reflexivity|].
  destruct (same y b) as [Hb|Hb], (same y a) as [Ha|Ha]; simpl.
  - congruence.
  - destruct (same y b); [reflexivity|contradiction].
  - destruct (same y a); [reflexivity|contradiction].
  - destruct (same y a); [contradiction|].
    destruct (same y b); [contradiction|]. now rewrite IH.
Qed.

Lemma find_app_last (A : Type) (p : A -> bool) (l : list A) (o : A) :
  find p (l ++ [o]) =
  match find p l with
  | Some x => Some x
  | None => if p o then Some o else None
  end.
Proof.
  induction l as [|y l IH]; simpl; [reflexivity|].
  destruct (p y); [reflexivity|exact IH].
Qed.

Lemma find_remove_first_other (A : Type) (same : forall a b : A, {a = b} + {a <> b})
      (p : A -> bool) (h h' : A) (l : list A) :
  find p l = Some h -> h' <> h -> find p (remove_first same h' l) = Some h.
Proof.
  intros Hfind Hne. induction l as [|y l IH]; simpl in *; [discriminate|].
  destruct (p y) eqn:Hy.
  - injection Hfind as ->.
    destruct (same h h') as [Heq|_]; [now destruct Hne|].
    simpl. now rewrite Hy.
  - destruct (same y h'); [exact Hfind|].
    simpl. rewrite Hy. now apply IH.
Qed.

Lemma js_get_in (A : Type) (l : list A) (i : Z) (x : A) :
  js_get l i = Some x -> In x l.
Proof.
  unfold js_get. destruct (i <? 0)%Z; [discriminate|]. apply nth_error_In.
Qed.

(** [remove] in one piece: the registry loses the first occurrence, and
    [_detach] runs when nothing is left. *)
Lemma remove_eq (s : OverlayKeyboardDispatcher) (o : OverlayRef) :
  remove s o =
  let s1 := {| _attachedOverlays := remove_first ref_same o (_attachedOverlays s);
               _isAttached := _isAttached s;
               _document := _document s |} in
  if (js_length (_attachedOverlays s1) =? 0)%Z then _detach s1 else s1.
Proof.
  unfold remove, indexOf.
  destruct (indexOf_from_spec ref_same o (_attachedOverlays s) 0)
    as [(Hk & _ & Hrf)|[(Hle & _ & Hsp)|Hbad]]; [| |lia].
  - rewrite Hk, Hrf. simpl. destruct s; reflexivity.
  - rewrite Z.sub_0_r in Hsp.
    destruct (-1 <? _)%Z eqn:E; [|apply Z.ltb_ge in E; lia].
    rewrite Hsp. reflexivity.
Qed.

Lemma select_in (s : OverlayKeyboardDispatcher) (event : KeyboardEvent)
      (h : OverlayRef) :
  _selectOverlayFromEvent s event = Some h -> In h (_attachedOverlays s).
Proof.
  unfold _selectOverlayFromEvent.
  destruct (find _ _) as [o|] eqn:Ef.
  - intros [= <-]. now apply find_some in Ef.
  - apply js_get_in.
Qed.

Lemma select_of_find (s : OverlayKeyboardDispatcher) (event : KeyboardEvent)
      (h : OverlayRef) :
  find (holds_target event) (_attachedOverlays s) = Some h ->
  _selectOverlayFromEvent s event = Some h /\
  _keydownListener s event = Returned [(h, event)].
Proof.
  intros Hfind.
  assert (Hsel : _selectOverlayFromEvent s event = Some h)
    by (unfold _selectOverlayFromEvent; now rewrite Hfind).
  split; [exact Hsel|].
  rewrite listener_of_nonempty, Hsel; [reflexivity|].
  intros Hnil. rewrite Hnil in Hfind. discriminate Hfind.
Qed.

Lemma select_of_tail (s : OverlayKeyboardDispatcher) (event : KeyboardEvent)
      (earlier : list OverlayRef) (last : OverlayRef) :
  _attachedOverlays s = earlier ++ [last] ->
  find (holds_target event) (_attachedOverlays s) = None ->
  _selectOverlayFromEvent s event = Some last /\
  _keydownListener s event = Returned [(last, event)].
Proof.
  intros Hsplit Hfind.
  assert (Hsel : _selectOverlayFromEvent s event = Some last).
  { unfold _selectOverlayFromEvent. rewrite Hfind, Hsplit. apply js_get_last. }
  split; [exact Hsel|].
  rewrite listener_of_nonempty, Hsel; [reflexivity|].
  rewrite Hsplit. intros Hnil. now destruct (app_cons_not_nil _ _ _ (eq_sym Hnil)).
Qed.

Lemma listener_emits_selected (s : OverlayKeyboardDispatcher)
      (event event' : KeyboardEvent) (h : OverlayRef) :
  _keydownListener s event = Returned [(h, event')] ->
  _selectOverlayFromEvent s event = Some h.
Proof.
  unfold _keydownListener.
  destruct (negb _); [|discriminate].
  destruct (_selectOverlayFromEvent s event); simpl; [|discriminate].
  now intros [= -> _].
Qed.

Lemma detach_unattached (s : OverlayKeyboardDispatcher) :
  _isAttached s = false -> _detach s = s.
Proof. unfold _detach. now intros ->. Qed.

Lemma remove_empty_isAttached (s : OverlayKeyboardDispatcher) (o : OverlayRef) :
  _attachedOverlays (remove s o) = [] -> _isAttached (remove s o) = false.
Proof.
  destruct (remove_cases s o) as [(_ & s1 & -> & _)|(Hne & _)];
    [intros _; apply detach_isAttached|contradiction].
Qed.

Lemma remove_first_gone (A : Type) (same : forall a b : A, {a = b} + {a <> b})
      (h : A) (l : list A) :
  count_occ same l h <= 1 -> ~ In h (remove_first same h l).
Proof.
  intros Hcount. apply (count_occ_not_In same).
  rewrite remove_first_count_occ.
  destruct (same h h); [lia|congruence].
Qed.

Lemma remove_first_length (A : Type) (same : forall a b : A, {a = b} + {a <> b})
      (h : A) (l : list A) :
  length (remove_first same h l)
  = length l - (if in_dec same h l then 1 else 0).
Proof.
  induction l as [|y l IH]; [reflexivity|].
  cbn [remove_first]. destruct (same y h) as [Heq|Hne].
  - destruct (in_dec same h (y :: l)) as [_|Hnot]; [simpl; lia|].
    exfalso. apply Hnot. now left.
  - cbn [length]. rewrite IH.
    destruct (in_dec same h l) as [Hin|Hnot],
             (in_dec same h (y :: l)) as [Hin'|Hnot'].
    + destruct l; [destruct Hin|simpl; lia].
    + exfalso. apply Hnot'. now right.
    + destruct Hin' as [Heq|Hin]; [now destruct Hne|contradiction].
    + lia.
Qed.

Lemma find_of_selected (s : OverlayKeyboardDispatcher) (event : KeyboardEvent)
      (h : OverlayRef) :
  _selectOverlayFromEvent s event = Some h -> holds_target event h = true ->
  find (holds_target event) (_attachedOverlays s) = Some h.
Proof.
  intros Hsel Hholds. pose proof (select_in _ _ Hsel) as Hin.
  unfold _selectOverlayFromEvent in Hsel.
  destruct (find _ _) as [o|] eqn:Ef; [exact Hsel|].
  rewrite (find_none _ _ Ef _ Hin) in Hholds. discriminate Hholds.
Qed.

Lemma lifecycle_step_no_leak (s : OverlayKeyboardDispatcher) (c : lifecycle_call) :
  no_leak s -> no_leak (lifecycle_step s c).
Proof.
  intros [Hag Himp]. destruct c as [o|o|]; cbn [lifecycle_step].
  - split; [now apply add_flag_agrees|].
    intros _. rewrite add_registry.
    intros Hnil. now destruct (app_cons_not_nil _ _ _ (eq_sym Hnil)).
  - split; [now apply remove_flag_agrees|].
    intros Hflag Hnil. apply remove_empty_isAttached in Hnil.
    rewrite Hnil in Hflag. discriminate Hflag.
  - split; [now apply detach_flag_agrees|].
    unfold ngOnDestroy. rewrite detach_isAttached. discriminate.
Qed.

Lemma lifecycle_states_after_no_leak (cs : list lifecycle_call) :
  forall s, no_leak s -> Forall no_leak (lifecycle_states_after s cs).
Proof.
  induction cs as [|c cs IH]; intros s Hs; simpl; constructor.
  - now apply lifecycle_step_no_leak.
  - apply IH. now apply lifecycle_step_no_leak.
Qed.

(** ** Routing as overlays come and go *)

(** X1. Target resolution comes back with [undefined] exactly when the
    registry is empty, and the listener, which asks for the length first,
    never ends in a [TypeError], whatever the state and the event. *)
Theorem select_undefined_only_when_empty
        (s : OverlayKeyboardDispatcher) (event : KeyboardEvent) :
  (_selectOverlayFromEvent s event = None <-> _attachedOverlays s = []) /\
  _keydownListener s event <> TypeError.
Proof.
  destruct (_attachedOverlays s) as [|o l] eqn:Hreg.
  - split.
    + split; [reflexivity|]. intros _.
      unfold _selectOverlayFromEvent. rewrite Hreg. reflexivity.
    + unfold _keydownListener. rewrite Hreg. discriminate.
  - assert (Hne : _attachedOverlays s <> []) by (rewrite Hreg; discriminate).
    destruct (select_of_nonempty s event Hne) as (h & _ & Hsel).
    split.
    + rewrite Hsel. split; discriminate.
    + rewrite listener_of_nonempty, Hsel by exact Hne. discriminate.
Qed.

(** X2. An overlay that was in the registry at most once is out of it after
    [remove], and no event is routed to it any more. *)
Theorem removed_overlay_gets_no_events
        (s : OverlayKeyboardDispatcher) (h : OverlayRef) (event : KeyboardEvent) :
  count_occ ref_same (_attachedOverlays s) h <= 1 ->
  ~ In h (_attachedOverlays (remove s h)) /\
  _selectOverlayFromEvent (remove s h) event <> Some h /\
  (forall event', _keydownListener (remove s h) event <> Returned [(h, event')]).
Proof.
  intros Hcount.
  assert (Hgone : ~ In h (_attachedOverlays (remove s h)))
    by (rewrite remove_registry; now apply remove_first_gone).
  split; [exact Hgone|]. split.
  - intros Hsel. apply Hgone. exact (select_in _ _ Hsel).
  - intros event' Hrun. apply Hgone.
    exact (select_in _ _ (listener_emits_selected _ _ Hrun)).
Qed.

(** X3. An event whose target is the root of, or inside, an overlay that
    is already registered goes where it went before when one more overlay is
    added: a newly attached overlay does not take it over. *)
Theorem add_keeps_targeted_routing
        (s : OverlayKeyboardDispatcher) (o : OverlayRef) (event : KeyboardEvent) :
  (exists h, In h (_attachedOverlays s) /\
             (overlayElement h = target event \/
              contains (overlayElement h) (target event) = true)) ->
  _selectOverlayFromEvent (add s o) event = _selectOverlayFromEvent s event /\
  _keydownListener (add s o) event = _keydownListener s event.
Proof.
  intros (h0 & Hin & Hhold).
  destruct (first_match_exists (holds_target event) (_attachedOverlays s))
    as (before & h & after & Hsplit & Hh & Hbefore).
  { exists h0. split; [exact Hin|]. now apply holds_target_true. }
  assert (Hfind : find (holds_target event) (_attachedOverlays s) = Some h)
    by (rewrite Hsplit; apply find_first_match; assumption).
  assert (Hfind' : find (holds_target event) (_attachedOverlays (add s o)) = Some h)
    by (now rewrite add_registry, find_app_last, Hfind).
  destruct (select_of_find _ _ Hfind) as [-> ->].
  exact (select_of_find _ _ Hfind').
Qed.

(** X4. An event whose target no registered overlay holds goes to the
    overlay that is added next, whether that one holds the target or not;
    so the first overlay ever added gets every event. *)
Theorem added_overlay_takes_unclaimed_events
        (s : OverlayKeyboardDispatcher) (o : OverlayRef) (event : KeyboardEvent) :
  (forall h, In h (_attachedOverlays s) ->
             overlayElement h <> target event /\
             contains (overlayElement h) (target event) = false) ->
  _selectOverlayFromEvent (add s o) event = Some o /\
  _keydownListener (add s o) event = Returned [(o, event)].
Proof.
  intros Hnone.
  assert (Hfind : find (holds_target event) (_attachedOverlays s) = None).
  { apply find_no_match. intros x Hx. now apply holds_target_false, Hnone. }
  pose proof (find_app_last (holds_target event) (_attachedOverlays s) o) as Happ.
  rewrite Hfind, <- add_registry in Happ.
  destruct (holds_target event o).
  - exact (select_of_find _ _ Happ).
  - eapply select_of_tail; [apply add_registry|exact Happ].
Qed.

(** X5. An event that is routed to overlay [h] because [h] holds its target
    is still routed to [h] after [remove] of any other overlay. *)
Theorem remove_other_keeps_targeted_routing
        (s : OverlayKeyboardDispatcher) (h h' : OverlayRef) (event : KeyboardEvent) :
  _selectOverlayFromEvent s event = Some h ->
  (overlayElement h = target event \/
   contains (overlayElement h) (target event) = true) ->
  h' <> h ->
  _selectOverlayFromEvent (remove s h') event = Some h /\
  _keydownListener (remove s h') event = Returned [(h, event)].
Proof.
  intros Hsel Hhold Hne.
  apply holds_target_true in Hhold.
  pose proof (find_of_selected _ _ Hsel Hhold) as Hfind.
  apply select_of_find. rewrite remove_registry.
  now apply find_remove_first_other.
Qed.

(** X6. With no registered overlay holding the target, the event goes to
    the overlay at the tail; once that one is removed (it being nowhere
    else in the registry) the event goes to the overlay attached just
    before it. *)
Theorem remove_top_falls_back_to_previous
        (s : OverlayKeyboardDispatcher) (earlier : list OverlayRef)
        (below top : OverlayRef) (event : KeyboardEvent) :
  _attachedOverlays s = earlier ++ [below; top] ->
  ~ In top (earlier ++ [below]) ->
  (forall h, In h (_attachedOverlays s) ->
             overlayElement h <> target event /\
             contains (overlayElement h) (target event) = false) ->
  _keydownListener s event = Returned [(top, event)] /\
  _selectOverlayFromEvent (remove s top) event = Some below /\
  _keydownListener (remove s top) event = Returned [(below, event)].
Proof.
  intros Hsplit Hnot Hnone.
  assert (Hsplit' : _attachedOverlays s = (earlier ++ [below]) ++ [top])
    by (rewrite Hsplit, <- app_assoc; reflexivity).
  assert (Hfind : find (holds_target event) (_attachedOverlays s) = None).
  { apply find_no_match. intros x Hx. now apply holds_target_false, Hnone. }
  assert (Hreg : _attachedOverlays (remove s top) = earlier ++ [below]).
  { rewrite remove_registry, Hsplit', remove_first_split by exact Hnot.
    apply app_nil_r. }
  split; [eapply select_of_tail; [exact Hsplit'|exact Hfind]|].
  eapply select_of_tail; [exact Hreg|].
  apply find_no_match. intros x Hx. apply holds_target_false, Hnone.
  rewrite Hsplit'. apply in_or_app. left. now rewrite <- Hreg.
Qed.

(** ** How the operations compose *)

(** X7. On a state that keeps the lifecycle invariant, [add] of an overlay
    that is not registered followed by [remove] of it gives the state back:
    registry, flag and document. *)
Theorem add_then_remove_restores
        (s : OverlayKeyboardDispatcher) (h : OverlayRef) :
  lifecycle_inv s -> ~ In h (_attachedOverlays s) ->
  remove (add s h) h = s.
Proof.
  intros [Hag Hiff] Hnot.
  rewrite remove_eq, add_registry.
  replace (_attachedOverlays s ++ [h]) with (_attachedOverlays s ++ h :: [])
    by reflexivity.
  rewrite remove_first_split, app_nil_r by exact Hnot.
  rewrite add_isAttached.
  unfold flag_agrees, listening in Hag.
  destruct s as [l f [b]]; simpl in *.
  destruct l as [|x l]; simpl.
  - destruct f.
    + now destruct (proj1 Hiff eq_refl).
    + subst b. reflexivity.
  - destruct f; [reflexivity|].
    assert (Hf : false = true) by (apply Hiff; discriminate).
    discriminate Hf.
Qed.

(** X8. [remove] takes one occurrence of the overlay out of the registry,
    if there is one, and none of any other overlay; the registry gets
    shorter by one exactly when the overlay was in it. *)
Theorem remove_takes_one_occurrence
        (s : OverlayKeyboardDispatcher) (h : OverlayRef) :
  count_occ ref_same (_attachedOverlays (remove s h)) h
  = Nat.pred (count_occ ref_same (_attachedOverlays s) h) /\
  (forall x, x <> h ->
             count_occ ref_same (_attachedOverlays (remove s h)) x
             = count_occ ref_same (_attachedOverlays s) x) /\
  length (_attachedOverlays (remove s h))
  = length (_attachedOverlays s)
    - (if in_dec ref_same h (_attachedOverlays s) then 1 else 0).
Proof.
  rewrite remove_registry. repeat split.
  - rewrite remove_first_count_occ.
    destruct (ref_same h h); [reflexivity|congruence].
  - intros x Hx. rewrite remove_first_count_occ.
    destruct (ref_same x h); [contradiction|reflexivity].
  - apply remove_first_length.
Qed.

(** X13. A second [remove] of an overlay that was in the registry at most
    once changes nothing: registry, flag and document stay as the first
    [remove] left them. *)
Theorem remove_twice_is_remove_once
        (s : OverlayKeyboardDispatcher) (h : OverlayRef) :
  count_occ ref_same (_attachedOverlays s) h <= 1 ->
  remove (remove s h) h = remove s h.
Proof.
  intros Hcount.
  assert (Hgone : ~ In h (_attachedOverlays (remove s h)))
    by (rewrite remove_registry; now apply remove_first_gone).
  rewrite (remove_eq (remove s h) h).
  rewrite remove_first_absent by exact Hgone.
  cbv zeta. cbn [_attachedOverlays].
  replace {| _attachedOverlays := _attachedOverlays (remove s h);
             _isAttached := _isAttached (remove s h);
             _document := _document (remove s h) |}
    with (remove s h) by (destruct (remove s h); reflexivity).
  destruct (js_length _ =? 0)%Z eqn:E; [|reflexivity].
  apply detach_unattached, remove_empty_isAttached.
  now apply js_length_zero.
Qed.

(** X14. Two [remove] calls can be made in either order: the state they
    leave is the same. *)
Theorem removes_commute
        (s : OverlayKeyboardDispatcher) (a b : OverlayRef) :
  remove (remove s a) b = remove (remove s b) a.
Proof.
  rewrite (remove_eq (remove s a) b), (remove_eq (remove s b) a).
  rewrite (remove_eq s a), (remove_eq s b).
  pose proof (remove_first_comm ref_same a b (_attachedOverlays s)) as Hcomm.
  destruct s as [l f d]. cbn [_attachedOverlays _isAttached _document] in *.
  cbv zeta. cbn [_attachedOverlays _isAttached _document].
  revert Hcomm.
  generalize (remove_first ref_same a l), (remove_first ref_same b l).
  intros ra rb Hcomm.
  destruct ra as [|x ra], rb as [|y rb]; cbn -[remove_first] in *;
    [ | rewrite Hcomm | rewrite <- Hcomm | rewrite Hcomm ];
    destruct f; reflexivity.
Qed.

(** X15. [remove] followed by [add] of the same overlay moves it from its
    first place in the registry to the tail, the other entries keeping
    their order, and leaves the listener registered: an overlay that is
    attached again counts as the most recent one. *)
Theorem remove_then_add_moves_to_tail
        (s : OverlayKeyboardDispatcher) (h : OverlayRef)
        (before after : list OverlayRef) :
  flag_agrees s ->
  _attachedOverlays s = before ++ h :: after -> ~ In h before ->
  _attachedOverlays (add (remove s h) h) = before ++ after ++ [h] /\
  _isAttached (add (remove s h) h) = true /\
  listening (add (remove s h) h) = true.
Proof.
  intros Hag Hsplit Hnot.
  pose proof (add_flag_agrees h (remove_flag_agrees h Hag)) as Hag'.
  unfold flag_agrees in Hag'.
  rewrite <- Hag', add_isAttached, add_registry, remove_registry, Hsplit.
  rewrite remove_first_split, app_assoc by exact Hnot.
  repeat split.
Qed.

(** ** Binding and unbinding the listener *)

(** X9. Along any sequence of [add], [remove] and [ngOnDestroy] calls made
    on a new dispatcher, after every call the flag says what the document
    says, and the listener is not registered while the registry is
    empty. *)
Theorem listener_never_leaks (cs : list lifecycle_call) :
  Forall (fun s => _isAttached s = listening s /\
                   (listening s = true -> _attachedOverlays s <> []))
         (lifecycle_states_after initial cs).
Proof.
  eapply Forall_impl; [|apply lifecycle_states_after_no_leak].
  - intros s [Hag Himp]. split; [exact Hag|].
    unfold flag_agrees in Hag. now rewrite <- Hag.
  - split; [reflexivity|]. simpl. discriminate.
Qed.

(** X10. [ngOnDestroy] does not end the service: an [add] after it, from
    any state, registers the listener again, with the overlays that were in
    the registry still ahead of the new one. *)
Theorem add_after_teardown_rebinds
        (s : OverlayKeyboardDispatcher) (h : OverlayRef) :
  _attachedOverlays (add (ngOnDestroy s) h) = _attachedOverlays s ++ [h] /\
  _isAttached (add (ngOnDestroy s) h) = true /\
  listening (add (ngOnDestroy s) h) = true.
Proof.
  unfold ngOnDestroy.
  rewrite add_registry, detach_registry, add_isAttached.
  repeat split.
  unfold add, listening. now rewrite detach_isAttached.
Qed.

(** X12. Only [add] registers the listener and only [_detach] takes it
    off: it is not registered after [remove] or [ngOnDestroy] unless it was
    before, and it stays registered through [add]. *)
Theorem listener_binding_direction
        (s : OverlayKeyboardDispatcher) (h : OverlayRef) :
  (listening (remove s h) = true -> listening s = true) /\
  (listening (ngOnDestroy s) = true -> listening s = true) /\
  (listening s = true -> listening (add s h) = true).
Proof.
  assert (Hdetach : forall x, listening (_detach x) = true -> listening x = true).
  { intros x. unfold _detach, listening.
    destruct (_isAttached x); simpl; [discriminate|trivial]. }
  repeat split.
  - destruct (remove_cases s h) as [(_ & s1 & -> & _ & Hd)|(_ & _ & Hd)].
    + intros Hl. apply Hdetach in Hl. unfold listening in *. now rewrite <- Hd.
    + unfold listening. now rewrite Hd.
  - apply Hdetach.
  - unfold add, listening. destruct (_isAttached s); simpl; trivial.
Qed.

(** ** The provider factory *)


End Dispatcher.

(** ** The theorems at work on the sample page *)

Lemma dispatch_first_containing_witness :
  let s := add (add (initial nat) 1) 2 in
  let event := mkKeyboardEvent 11 27%Z in
  (exists h, In h (_attachedOverlays s) /\
             (sample_overlayElement h = target event \/
              sample_contains (sample_overlayElement h) (target event) = true)) /\
  (exists before h after,
      _attachedOverlays s = before ++ h :: after /\
      (sample_overlayElement h = target event \/
       sample_contains (sample_overlayElement h) (target event) = true) /\
      (forall x, In x before ->
                 sample_overlayElement x <> target event /\
                 sample_contains (sample_overlayElement x) (target event) = false) /\
      _selectOverlayFromEvent Nat.eq_dec sample_overlayElement sample_contains
                              s event = Some h /\
      _keydownListener Nat.eq_dec sample_overlayElement sample_contains s event
      = Returned [(h, event)]).
Proof.
  intros s event.
  assert (Hsome : exists h, In h (_attachedOverlays s) /\
             (sample_overlayElement h = target event \/
              sample_contains (sample_overlayElement h) (target event) = true)).
  { exists 2. split; [right; left; reflexivity|right; reflexivity]. }
  split; [exact Hsome|].
  exact (dispatch_first_containing Nat.eq_dec sample_overlayElement
                                   sample_contains s event Hsome).
Defined.

Lemma dispatch_fallback_most_recent_witness :
  let s := add (add (add (initial nat) 1) 2) 3 in
  let event := mkKeyboardEvent 99 27%Z in
  (_attachedOverlays s <> [] /\
   (forall h, In h (_attachedOverlays s) ->
              sample_overlayElement h <> target event /\
              sample_contains (sample_overlayElement h) (target event) = false)) /\
  (exists earlier last,
      _attachedOverlays s = earlier ++ [last] /\
      _selectOverlayFromEvent Nat.eq_dec sample_overlayElement sample_contains
                              s event = Some last /\
      _keydownListener Nat.eq_dec sample_overlayElement sample_contains s event
      = Returned [(last, event)]).
Proof.
  intros s event.
  assert (Hne : _attachedOverlays s <> []) by discriminate.
  assert (Hnone : forall h, In h (_attachedOverlays s) ->
              sample_overlayElement h <> target event /\
              sample_contains (sample_overlayElement h) (target event) = false).
  { intros h [<-|[<-|[<-|[]]]]; split; solve [discriminate|reflexivity]. }
  split; [split; assumption|].
  exact (dispatch_fallback_most_recent Nat.eq_dec sample_overlayElement
                                       sample_contains s event Hne Hnone).
Defined.

Lemma dispatch_single_delivery_witness :
  let s := add (add (add (initial nat) 1) 2) 3 in
  let event := mkKeyboardEvent 11 13%Z in
  _attachedOverlays s <> [] /\
  (exists h, In h (_attachedOverlays s) /\
             _keydownListener Nat.eq_dec sample_overlayElement sample_contains
                              s event = Returned [(h, event)]).
Proof.
  intros s event.
  assert (Hne : _attachedOverlays s <> []) by discriminate.
  split; [exact Hne|].
  exact (dispatch_single_delivery Nat.eq_dec sample_overlayElement
                                  sample_contains s event Hne).
Defined.

Lemma dispatch_empty_registry_dropped_witness :
  let s := remove Nat.eq_dec (add (initial nat) 1) 1 in
  let event := mkKeyboardEvent 11 13%Z in
  _attachedOverlays s = [] /\
  _keydownListener Nat.eq_dec sample_overlayElement sample_contains s event
  = Returned [] /\
  _selectOverlayFromEvent Nat.eq_dec sample_overlayElement sample_contains
                          s event = None /\
  keydownEvents_next
    (_selectOverlayFromEvent Nat.eq_dec sample_overlayElement sample_contains
                             s event) event = TypeError nat nat.
Proof.
  intros s event.
  assert (Hnil : _attachedOverlays s = []) by reflexivity.
  split; [exact Hnil|].
  exact (dispatch_empty_registry_dropped Nat.eq_dec sample_overlayElement
                                         sample_contains s event Hnil).
Defined.

Lemma remove_first_occurrence_witness :
  let abcd := add (add (add (add (initial nat) 1) 2) 3) 4 in
  let only_a := add (initial nat) 1 in
  (_attachedOverlays abcd = [1] ++ 2 :: [3; 4] /\ ~ In 2 [1] /\
   _attachedOverlays (remove Nat.eq_dec abcd 2) = [1] ++ [3; 4]) /\
  (~ In 9 (_attachedOverlays abcd) /\
   _attachedOverlays (remove Nat.eq_dec abcd 9) = _attachedOverlays abcd) /\
  (_attachedOverlays (remove Nat.eq_dec only_a 1) = [] /\
   flag_agrees only_a /\
   _isAttached (remove Nat.eq_dec only_a 1) = false /\
   listening (remove Nat.eq_dec only_a 1) = false).
Proof.
  intros abcd only_a.
  assert (Hsplit : _attachedOverlays abcd = [1] ++ 2 :: [3; 4]) by reflexivity.
  assert (Hnot : ~ In 2 [1]) by (intros [H|[]]; discriminate H).
  assert (Habsent : ~ In 9 (_attachedOverlays abcd))
    by (intros [H|[H|[H|[H|[]]]]]; discriminate H).
  assert (Hnil : _attachedOverlays (remove Nat.eq_dec only_a 1) = [])
    by reflexivity.
  assert (Hag : flag_agrees only_a) by reflexivity.
  pose proof (remove_first_occurrence Nat.eq_dec abcd 2) as (Hfirst & _ & _).
  pose proof (remove_first_occurrence Nat.eq_dec abcd 9) as (_ & Hsame & _).
  pose proof (remove_first_occurrence Nat.eq_dec only_a 1) as (_ & _ & Hempty).
  destruct (Hempty Hnil) as [Hflag Hlisten].
  split; [|split].
  - split; [exact Hsplit|]. split; [exact Hnot|].
    exact (Hfirst [1] [3; 4] Hsplit Hnot).
  - split; [exact Habsent|exact (Hsame Habsent)].
  - split; [exact Hnil|]. split; [exact Hag|].
    split; [exact Hflag|exact (Hlisten Hag)].
Defined.

Lemma double_add_single_remove_witness :
  let s := initial nat in
  let twice := add (fold_left (@add nat) [2] (add s 1)) 1 in
  (flag_agrees s /\ ~ In 1 (_attachedOverlays s) /\ ~ In 1 [2]) /\
  _attachedOverlays twice = _attachedOverlays s ++ 1 :: [2] ++ [1] /\
  count_occ Nat.eq_dec (_attachedOverlays twice) 1 = 2 /\
  _attachedOverlays (remove Nat.eq_dec twice 1)
  = _attachedOverlays s ++ [2] ++ [1] /\
  count_occ Nat.eq_dec (_attachedOverlays (remove Nat.eq_dec twice 1)) 1 = 1 /\
  _isAttached (remove Nat.eq_dec twice 1) = true /\
  listening (remove Nat.eq_dec twice 1) = true.
Proof.
  intros s twice.
  assert (Hag : flag_agrees s) by reflexivity.
  assert (Hnot : ~ In 1 (_attachedOverlays s)) by (intros []).
  assert (Hothers : ~ In 1 [2]) by (intros [H|[]]; discriminate H).
  split; [repeat split; assumption|].
  exact (@double_add_single_remove nat Nat.eq_dec s 1 [2] Hag Hnot Hothers).
Defined.

Lemma teardown_unbinds_keeps_registry_witness :
  let s := add (add (initial nat) 1) 2 in
  flag_agrees s /\
  listening (ngOnDestroy s) = false /\
  _isAttached (ngOnDestroy s) = false /\
  _attachedOverlays (ngOnDestroy s) = _attachedOverlays s.
Proof.
  intros s.
  assert (Hag : flag_agrees s) by reflexivity.
  split; [exact Hag|].
  exact (@teardown_unbinds_keeps_registry nat s Hag).
Defined.

Lemma teardown_idempotent_witness :
  let s := initial nat in
  _isAttached s = false /\
  ngOnDestroy (ngOnDestroy s) = ngOnDestroy s /\
  ngOnDestroy s = s.
Proof.
  intros s.
  assert (Hflag : _isAttached s = false) by reflexivity.
  destruct (teardown_idempotent s) as (Htwice & Hnoop & _).
  split; [exact Hflag|]. split; [exact Htwice|exact (Hnoop Hflag)].
Defined.

Lemma registry_NoDup_when_adds_fresh_witness :
  let cs := [Add 1; Add 2; Remove 1; Remove 7; Add 1] in
  adds_fresh Nat.eq_dec (initial nat) cs = true /\
  Forall (fun s => NoDup (_attachedOverlays s))
         (states_after Nat.eq_dec (initial nat) cs).
Proof.
  intros cs.
  assert (Hfresh : adds_fresh Nat.eq_dec (initial nat) cs = true) by reflexivity.
  split; [exact Hfresh|].
  exact (@registry_NoDup_when_adds_fresh nat Nat.eq_dec cs Hfresh).
Defined.

(** ** Where the code departs from the description *)

(** C6 as stated fails: after [add] of overlay 1 on a new dispatcher,
    [ngOnDestroy] leaves overlay 1 in the registry. *)
Lemma teardown_keeps_registry_counterexample :
  let s := add (initial nat) 1 in
  _attachedOverlays (ngOnDestroy s) = [1] /\
  _attachedOverlays (ngOnDestroy s) <> [].
Proof.
  intros s. split; [reflexivity|discriminate].
Qed.

(** C7 as stated fails: two [add] calls with overlay 1 on a new dispatcher
    leave it in the registry twice. *)
Lemma duplicate_add_counterexample :
  _attachedOverlays (add (add (initial nat) 1) 1) = [1; 1] /\
  ~ Forall (fun s => NoDup (_attachedOverlays s))
           (states_after Nat.eq_dec (initial nat) [Add 1; Add 1]).
Proof.
  split; [reflexivity|].
  intros Hall. inversion Hall as [|s1 rest _ Hrest]; subst.
  inversion Hrest as [|s2 rest' Hnd _]; subst.
  inversion Hnd as [|x l Hnot _]; subst.
  apply Hnot. left. reflexivity.
Qed.

(** ** Routing and composition on the sample page *)

Lemma removed_overlay_gets_no_events_witness :
  let s := add (add (initial nat) 1) 2 in
  let event := mkKeyboardEvent 11 27%Z in
  count_occ Nat.eq_dec (_attachedOverlays s) 1 <= 1 /\
  ~ In 1 (_attachedOverlays (remove Nat.eq_dec s 1)) /\
  _selectOverlayFromEvent Nat.eq_dec sample_overlayElement sample_contains
                          (remove Nat.eq_dec s 1) event <> Some 1 /\
  (forall event',
      _keydownListener Nat.eq_dec sample_overlayElement sample_contains
                       (remove Nat.eq_dec s 1) event <> Returned [(1, event')]).
Proof.
  intros s event.
  assert (Hcount : count_occ Nat.eq_dec (_attachedOverlays s) 1 <= 1)
    by (vm_compute; apply le_n).
  split; [exact Hcount|].
  exact (removed_overlay_gets_no_events Nat.eq_dec Nat.eq_dec sample_overlayElement
                                        sample_contains s 1 event Hcount).
Defined.

Lemma add_keeps_targeted_routing_witness :
  let s := add (add (initial nat) 1) 2 in
  let event := mkKeyboardEvent 11 27%Z in
  (exists h, In h (_attachedOverlays s) /\
             (sample_overlayElement h = target event \/
              sample_contains (sample_overlayElement h) (target event) = true)) /\
  _selectOverlayFromEvent Nat.eq_dec sample_overlayElement sample_contains
                          (add s 3) event
  = _selectOverlayFromEvent Nat.eq_dec sample_overlayElement sample_contains
                            s event /\
  _keydownListener Nat.eq_dec sample_overlayElement sample_contains (add s 3) event
  = _keydownListener Nat.eq_dec sample_overlayElement sample_contains s event.
Proof.
  intros s event.
  assert (Hsome : exists h, In h (_attachedOverlays s) /\
             (sample_overlayElement h = target event \/
              sample_contains (sample_overlayElement h) (target event) = true)).
  { exists 1. split; [left; reflexivity|right; reflexivity]. }
  split; [exact Hsome|].
  exact (add_keeps_targeted_routing Nat.eq_dec sample_overlayElement
                                    sample_contains s 3 event Hsome).
Defined.

Lemma added_overlay_takes_unclaimed_events_witness :
  let s := add (add (initial nat) 1) 2 in
  let event := mkKeyboardEvent 99 27%Z in
  (forall h, In h (_attachedOverlays s) ->
             sample_overlayElement h <> target event /\
             sample_contains (sample_overlayElement h) (target event) = false) /\
  _selectOverlayFromEvent Nat.eq_dec sample_overlayElement sample_contains
                          (add s 3) event = Some 3 /\
  _keydownListener Nat.eq_dec sample_overlayElement sample_contains (add s 3) event
  = Returned [(3, event)].
Proof.
  intros s event.
  assert (Hnone : forall h, In h (_attachedOverlays s) ->
             sample_overlayElement h <> target event /\
             sample_contains (sample_overlayElement h) (target event) = false).
  { intros h [<-|[<-|[]]]; split; solve [discriminate|reflexivity]. }
  split; [exact Hnone|].
  exact (added_overlay_takes_unclaimed_events Nat.eq_dec sample_overlayElement
                                              sample_contains s 3 event Hnone).
Defined.

Lemma remove_other_keeps_targeted_routing_witness :
  let s := add (add (add (initial nat) 1) 2) 3 in
  let event := mkKeyboardEvent 11 27%Z in
  (_selectOverlayFromEvent Nat.eq_dec sample_overlayElement sample_contains
                           s event = Some 1 /\
   (sample_overlayElement 1 = target event \/
    sample_contains (sample_overlayElement 1) (target event) = true) /\
   2 <> 1) /\
  _selectOverlayFromEvent Nat.eq_dec sample_overlayElement sample_contains
                          (remove Nat.eq_dec s 2) event = Some 1 /\
  _keydownListener Nat.eq_dec sample_overlayElement sample_contains
                   (remove Nat.eq_dec s 2) event = Returned [(1, event)].
Proof.
  intros s event.
  assert (Hsel : _selectOverlayFromEvent Nat.eq_dec sample_overlayElement
                                         sample_contains s event = Some 1)
    by reflexivity.
  assert (Hhold : sample_overlayElement 1 = target event \/
                  sample_contains (sample_overlayElement 1) (target event) = true)
    by (right; reflexivity).
  assert (Hne : 2 <> 1) by discriminate.
  split; [repeat split; assumption|].
  exact (@remove_other_keeps_targeted_routing
           nat nat Nat.eq_dec Nat.eq_dec sample_overlayElement sample_contains
           s 1 2 event Hsel Hhold Hne).
Defined.

Lemma remove_top_falls_back_to_previous_witness :
  let s := add (add (add (initial nat) 1) 2) 3 in
  let event := mkKeyboardEvent 99 27%Z in
  (_attachedOverlays s = [1] ++ [2; 3] /\
   ~ In 3 ([1] ++ [2]) /\
   (forall h, In h (_attachedOverlays s) ->
              sample_overlayElement h <> target event /\
              sample_contains (sample_overlayElement h) (target event) = false)) /\
  _keydownListener Nat.eq_dec sample_overlayElement sample_contains s event
  = Returned [(3, event)] /\
  _selectOverlayFromEvent Nat.eq_dec sample_overlayElement sample_contains
                          (remove Nat.eq_dec s 3) event = Some 2 /\
  _keydownListener Nat.eq_dec sample_overlayElement sample_contains
                   (remove Nat.eq_dec s 3) event = Returned [(2, event)].
Proof.
  intros s event.
  assert (Hsplit : _attachedOverlays s = [1] ++ [2; 3]) by reflexivity.
  assert (Hnot : ~ In 3 ([1] ++ [2])) by (intros [H|[H|[]]]; discriminate H).
  assert (Hnone : forall h, In h (_attachedOverlays s) ->
             sample_overlayElement h <> target event /\
             sample_contains (sample_overlayElement h) (target event) = false).
  { intros h [<-|[<-|[<-|[]]]]; split; solve [discriminate|reflexivity]. }
  split; [repeat split; try assumption; apply Hnone; assumption|].
  exact (remove_top_falls_back_to_previous
           Nat.eq_dec Nat.eq_dec sample_overlayElement sample_contains
           s [1] 2 3 event Hsplit Hnot Hnone).
Defined.

Lemma add_then_remove_restores_witness :
  let s := add (initial nat) 1 in
  (lifecycle_inv s /\ ~ In 2 (_attachedOverlays s)) /\
  remove Nat.eq_dec (add s 2) 2 = s.
Proof.
  intros s.
  assert (Hinv : lifecycle_inv s).
  { split; [reflexivity|]. split; [discriminate|reflexivity]. }
  assert (Hnot : ~ In 2 (_attachedOverlays s)) by (intros [H|[]]; discriminate H).
  split; [split; assumption|].
  exact (@add_then_remove_restores nat Nat.eq_dec s 2 Hinv Hnot).
Defined.

Lemma remove_takes_one_occurrence_witness :
  let s := add (add (add (initial nat) 1) 2) 1 in
  2 <> 1 /\
  count_occ Nat.eq_dec (_attachedOverlays (remove Nat.eq_dec s 1)) 1 = 1 /\
  count_occ Nat.eq_dec (_attachedOverlays (remove Nat.eq_dec s 1)) 2
  = count_occ Nat.eq_dec (_attachedOverlays s) 2 /\
  length (_attachedOverlays (remove Nat.eq_dec s 1)) = 2.
Proof.
  intros s.
  assert (Hne : 2 <> 1) by discriminate.
  destruct (remove_takes_one_occurrence Nat.eq_dec s 1) as (Hown & Hothers & Hlen).
  split; [exact Hne|]. split; [exact Hown|].
  split; [exact (Hothers 2 Hne)|exact Hlen].
Defined.

Lemma remove_twice_is_remove_once_witness :
  let s := add (initial nat) 1 in
  count_occ Nat.eq_dec (_attachedOverlays s) 1 <= 1 /\
  remove Nat.eq_dec (remove Nat.eq_dec s 1) 1 = remove Nat.eq_dec s 1.
Proof.
  intros s.
  assert (Hcount : count_occ Nat.eq_dec (_attachedOverlays s) 1 <= 1)
    by (vm_compute; apply le_n).
  split; [exact Hcount|].
  exact (remove_twice_is_remove_once Nat.eq_dec s 1 Hcount).
Defined.

Lemma listener_binding_direction_witness :
  let s := add (add (initial nat) 1) 2 in
  (listening (remove Nat.eq_dec s 1) = true /\ listening s = true) /\
  (listening s = true /\ listening (add s 3) = true).
Proof.
  intros s.
  assert (Hafter : listening (remove Nat.eq_dec s 1) = true) by reflexivity.
  assert (Hbefore : listening s = true) by reflexivity.
  destruct (listener_binding_direction Nat.eq_dec s 1) as (Hremove & _ & _).
  destruct (listener_binding_direction Nat.eq_dec s 3) as (_ & _ & Hadd).
  split; [split; [exact Hafter|exact (Hremove Hafter)]|].
  split; [exact Hbefore|exact (Hadd Hbefore)].
Defined.

Lemma remove_then_add_moves_to_tail_witness :
  let s := add (add (add (initial nat) 1) 2) 3 in
  (flag_agrees s /\ _attachedOverlays s = [1] ++ 2 :: [3] /\ ~ In 2 [1]) /\
  _attachedOverlays (add (remove Nat.eq_dec s 2) 2) = [1] ++ [3] ++ [2] /\
  _isAttached (add (remove Nat.eq_dec s 2) 2) = true /\
  listening (add (remove Nat.eq_dec s 2) 2) = true.
Proof.
  intros s.
  assert (Hag : flag_agrees s) by reflexivity.
  assert (Hsplit : _attachedOverlays s = [1] ++ 2 :: [3]) by reflexivity.
  assert (Hnot : ~ In 2 [1]) by (intros [H|[]]; discriminate H).
  split; [repeat split; assumption|].
  exact (@remove_then_add_moves_to_tail nat Nat.eq_dec s 2 [1] [3]
                                         Hag Hsplit Hnot).
Defined.
